(** * XKCD read-through cache service and its error handler

    A shallow embedding of [services/xkcdService.js] (class [XKCDService])
    and of [middleware/errorHandler.js], followed by the properties the
    specification states about them.

    Conventions of the embedding:
    - the service object's mutable [Map] is a [gmap string CacheEntry];
    - [Date.now()] reads the [clock] field of the state, and an awaited
      [fetch] advances it by the time the reply took;
    - the provider is a function from the requested URL and the time of the
      request to a reply, so that its answers may change over time;
    - every URL handed to [fetch] is appended to the [requests] log;
    - a thrown JavaScript error is a [Failure] record ([name], [message], and
      the optional fields the error handler reads);
    - an [async] method is a function [State -> Outcome A * State]. *)

From Stdlib Require Import QArith Qround.
From stdpp Require Import base numbers strings list gmap pretty.

Local Open Scope Z_scope.
Local Open Scope string_scope.

(** ** JavaScript numbers and values *)

(** The numbers the service computes with: finite numbers as rationals
    (every finite double is one) and [NaN]. *)
Inductive JsNum : Type :=
  | Fin (q : Q)
  | NaN.

(** The two kinds of value that reach arithmetic in the service. *)
Inductive JsVal : Type :=
  | Undefined
  | Number (n : JsNum).

Definition ofZ (z : Z) : JsNum := Fin (inject_Z z).

(** [ToNumber]: [undefined] converts to [NaN]. *)
Definition toNumber (v : JsVal) : JsNum :=
  match v with
  | Undefined => NaN
  | Number n => n
  end.

(** [a < b]: any comparison with [NaN] is false. *)
Definition js_lt (a b : JsNum) : bool :=
  match a, b with
  | Fin x, Fin y => bool_decide (Qnum x * Zpos (Qden y) < Qnum y * Zpos (Qden x))
  | _, _ => false
  end.

Definition js_mul (a b : JsNum) : JsNum :=
  match a, b with
  | Fin x, Fin y => Fin (Qmult x y)
  | _, _ => NaN
  end.

Definition js_add (a b : JsNum) : JsNum :=
  match a, b with
  | Fin x, Fin y => Fin (Qplus x y)
  | _, _ => NaN
  end.

(** [Math.floor]. *)
Definition js_floor (a : JsNum) : JsNum :=
  match a with
  | Fin x => Fin (inject_Z (Qfloor x))
  | NaN => NaN
  end.

Definition is_integer (a : JsNum) : bool :=
  match a with
  | Fin x => bool_decide (Qnum x mod Zpos (Qden x) = 0)
  | NaN => false
  end.

(** Digits after the decimal point of [r / d], for [0 <= r < d]. *)
Fixpoint fraction_digits (fuel : nat) (r d : Z) : string :=
  match fuel with
  | O => ""
  | S fuel' =>
      if bool_decide (r = 0) then ""
      else pretty ((10 * r) / d) +:+ fraction_digits fuel' ((10 * r) mod d) d
  end.

(** Number to string, as a template literal does it.  Exact on integers of
    magnitude below 10^21 and on decimals with at most 17 significant
    digits, which covers every identifier the service formats. *)
Definition numToString (a : JsNum) : string :=
  match a with
  | NaN => "NaN"
  | Fin x =>
      let n := Qnum x in
      let d := Zpos (Qden x) in
      if bool_decide (n mod d = 0) then pretty (n / d)
      else
        let m := Z.abs n in
        (if bool_decide (n < 0) then "-" else "")
          +:+ pretty (m / d) +:+ "." +:+ fraction_digits 17 (m mod d) d
  end.

(** ** Failures *)

(** A thrown value, with the properties the error handler inspects.  A field
    the error does not carry is [None] (JavaScript's [undefined]). *)
Record Failure : Type := mkFailure {
  name : string;
  message : string;
  details : option string;
  isOperational : bool;
  statusCode : option Z;
  timestamp : option string
}.

(** [new Error(msg)]. *)
Definition Error (msg : string) : Failure :=
  mkFailure "Error" msg None false None None.

(** Evaluating an identifier with no binding in scope. *)
Definition ReferenceError (x : string) : Failure :=
  mkFailure "ReferenceError" (x +:+ " is not defined") None false None None.

(** Assigning to a [const] binding. *)
Definition TypeError (msg : string) : Failure :=
  mkFailure "TypeError" msg None false None None.

Inductive Outcome (A : Type) : Type :=
  | Resolved (a : A)
  | Rejected (e : Failure).
Arguments Resolved {A} a.
Arguments Rejected {A} e.

Definition is_resolved {A} (o : Outcome A) : bool :=
  match o with
  | Resolved _ => true
  | Rejected _ => false
  end.

(** [try { body } catch (error) { throw new Error(prefix + error.message) }] *)
Definition rethrow {A} (prefix : string) (o : Outcome A) : Outcome A :=
  match o with
  | Resolved a => Resolved a
  | Rejected e => Rejected (Error (prefix +:+ message e))
  end.

(** Looking an identifier up in the bindings that are visible at a program
    point. *)
Definition resolve (scope : list string) (x : string) : Outcome unit :=
  if bool_decide (x ∈ scope) then Resolved tt else Rejected (ReferenceError x).

(** ** middleware/errorHandler.js *)

Module ErrorHandler.

(** A field of the JSON body handed to [res.json]. *)
Record HttpResponse : Type := mkResponse {
  status : option Z;
  body : list (string * option string)
}.

Definition errorHandler (err : Failure) : HttpResponse :=
  if bool_decide (name err = "ValidationError") then
    mkResponse (Some 400)
      [("error", Some "Validation Error");
       ("message", Some (message err));
       ("details", details err)]
  else if bool_decide (name err = "ComicNotFound") then
    mkResponse (Some 404)
      [("error", Some "Comic not found");
       ("message", Some "The requested comic does not exist")]
  else if bool_decide (name err = "InvalidComicID") then
    mkResponse (Some 400)
      [("error", Some "Invalid comic ID");
       ("message", Some "Comic ID must be a positive integer")]
  else if isOperational err then
    mkResponse (statusCode err)
      [("error", Some (message err));
       ("timestamp", timestamp err)]
  else
    mkResponse (Some 500)
      [("error", Some "Internal Server Error");
       ("message", Some "Error handler not implemented")].

(** The branch of [errorHandler] a failure takes. *)
Inductive ErrorClass : Type :=
  | ValidationError
  | ComicNotFound
  | InvalidComicID
  | Operational
  | Unclassified.

Definition classify (err : Failure) : ErrorClass :=
  if bool_decide (name err = "ValidationError") then ValidationError
  else if bool_decide (name err = "ComicNotFound") then ComicNotFound
  else if bool_decide (name err = "InvalidComicID") then InvalidComicID
  else if isOperational err then Operational
  else Unclassified.

End ErrorHandler.

(** ** services/xkcdService.js: data *)

(** The payload the provider serves for one comic. *)
Module Raw.
Record t : Type := mk {
  num : Z;
  title : string;
  img : string;
  alt : string;
  transcript : option string;
  year : string;
  month : string;
  day : string;
  safe_title : string
}.
End Raw.

Record Comic : Type := mkComic {
  id : Z;
  title : string;
  img : string;
  alt : string;
  transcript : string;
  year : string;
  month : string;
  day : string;
  safe_title : string
}.

(** [comic.transcript || '']: an absent or empty transcript becomes [''] . *)
Definition processComic (comic : Raw.t) : Comic :=
  mkComic (Raw.num comic) (Raw.title comic) (Raw.img comic) (Raw.alt comic)
    (match Raw.transcript comic with
     | Some t => if bool_decide (t = "") then "" else t
     | None => ""
     end)
    (Raw.year comic) (Raw.month comic) (Raw.day comic) (Raw.safe_title comic).

(** The object literal [{ data, timestamp }] stored in the map. *)
Module Entry.
Record t : Type := mk {
  data : Comic;
  timestamp : Z
}.
End Entry.

(** ** The provider *)

Inductive Body : Type :=
  | Json (comic : Raw.t)
  | Malformed (reason : string).

(** How a [fetch] settles: the promise rejects, or it resolves to a response
    with a status line and a body. *)
Inductive Fetched : Type :=
  | NetworkError (reason : string)
  | Response (status : Z) (statusText : string) (body : Body).

Record Reply : Type := mkReply {
  fetched : Fetched;
  elapsed : Z
}.

(** The reply to a request for a URL issued at a given time. *)
Definition Network : Type := string -> Z -> Reply.

(** [response.ok] *)
Definition ok (status : Z) : bool :=
  bool_decide (200 <= status <= 299).

(** The fetch did not deliver a 2xx response: the request was rejected, or
    the status of the response is outside 200..299. *)
Definition fetch_failed (r : Fetched) : bool :=
  match r with
  | NetworkError _ => true
  | Response status _ _ => negb (ok status)
  end.

(** ** The service object and its environment *)

Record State : Type := mkState {
  cache : gmap string Entry.t;
  clock : Z;
  requests : list string;
  floating : list Z
}.

(** [new XKCDService()] at time [t]. *)
Definition initial (t : Z) : State := mkState ∅ t [] [].

Definition baseUrl : string := "https://xkcd.com".
Definition cacheTimeout : Z := 5 * 60 * 1000.

Definition cache_set (key : string) (e : Entry.t) (s : State) : State :=
  mkState (<[key := e]> (cache s)) (clock s) (requests s) (floating s).

(** [fetch(url)]: the request leaves the process. *)
Definition request (url : string) (s : State) : State :=
  mkState (cache s) (clock s) (requests s ++ [url]) (floating s).

(** Time passing, while a promise is awaited or between two calls. *)
Definition advance (d : Z) (s : State) : State :=
  mkState (cache s) (clock s + d) (requests s) (floating s).

Definition Async (A : Type) : Type := State -> Outcome A * State.

(** ** getLatest *)

Definition latestUrl : string := baseUrl +:+ "/info.0.json".

(** The synchronous prefix of [getLatest]: the cached comic when the entry
    under ['latest'] exists and is younger than [cacheTimeout]. *)
Definition freshLatest (s : State) : option Comic :=
  let cacheKey := "latest" in
  match cache s !! cacheKey with
  | Some cached =>
      if bool_decide (clock s - Entry.timestamp cached < cacheTimeout)
      then Some (Entry.data cached)
      else None
  | None => None
  end.

(** The [try] block of [getLatest] from the point where [fetch] has
    settled. *)
Definition latestFetched (r : Fetched) : Async Comic := fun s =>
  match r with
  | NetworkError reason =>
      (Rejected (mkFailure "FetchError" reason None false None None), s)
  | Response status statusText body =>
      if negb (ok status) then
        (Rejected (Error ("HTTP " +:+ pretty status +:+ ": " +:+ statusText)), s)
      else
        match body with
        | Malformed reason =>
            (Rejected (mkFailure "FetchError" reason None false None None), s)
        | Json comic =>
            let processedComic := processComic comic in
            (Resolved processedComic,
             cache_set "latest" (Entry.mk processedComic (clock s)) s)
        end
  end.

Definition getLatest (net : Network) : Async Comic := fun s =>
  match freshLatest s with
  | Some data => (Resolved data, s)
  | None =>
      let reply := net latestUrl (clock s) in
      let s1 := advance (elapsed reply) (request latestUrl s) in
      let '(o, s2) := latestFetched (fetched reply) s1 in
      (rethrow "Failed to fetch latest comic: " o, s2)
  end.

(** [this.getLatest()] called without awaiting the promise it returns, as in
    [await this.getLatest().id]: the call runs up to its first [await], so a
    request is issued unless the cached entry is fresh, and the rest of the
    call is left floating, remembered by the time of its request. *)
Definition getLatest_floating (s : State) : State :=
  match freshLatest s with
  | Some _ => s
  | None =>
      let s1 := request latestUrl s in
      mkState (cache s1) (clock s1) (requests s1) (floating s1 ++ [clock s])
  end.

(** The event loop resumes the oldest floating [getLatest] at the current
    time; nobody observes its result. *)
Definition settle (net : Network) (s : State) : State :=
  match floating s with
  | [] => s
  | t :: rest =>
      snd (latestFetched (fetched (net latestUrl t))
             (mkState (cache s) (clock s) (requests s) rest))
  end.

(** ** getById *)

(** Bindings of the module and the globals its code refers to. *)
Definition moduleScope : list string :=
  ["fetch"; "exitOnError"; "XKCDService"; "require"; "module"; "exports";
   "Date"; "Math"; "Error"; "Map"; "Array"; "Promise"].

(** What [getById] resolves to: the map entry on a hit ([return
    cachedComic]), the processed comic after a fetch. *)
Inductive Returned : Type :=
  | ReturnedEntry (e : Entry.t)
  | ReturnedComic (c : Comic).

Definition comicUrl (id : JsNum) : string :=
  baseUrl +:+ "/" +:+ numToString id +:+ "/info.0.json".

(** The [try] block of [getById] once [fetch] has settled: it yields the
    response when it throws nothing. *)
Definition byIdFetched (r : Fetched) : Outcome Body :=
  match r with
  | NetworkError reason =>
      Rejected (mkFailure "FetchError" reason None false None None)
  | Response status statusText body =>
      if bool_decide (status = 404) then Rejected (Error "Comic not found")
      else if negb (ok status) then
        Rejected (Error ("HTTP " +:+ pretty status +:+ ": " +:+ statusText))
      else Resolved body
  end.

Definition getById (net : Network) (id : JsNum) : Async Returned := fun s =>
  if js_lt id (ofZ 1) then (Rejected (Error "Invalid comic ID"), s)
  else
    let cachedKey := "comic-" +:+ numToString id in
    match cache s !! cachedKey with
    | Some cachedComic => (Resolved (ReturnedEntry cachedComic), s)
    | None =>
        let reply := net (comicUrl id) (clock s) in
        let s1 := advance (elapsed reply) (request (comicUrl id) s) in
        match rethrow "Failed to getByID " (byIdFetched (fetched reply)) with
        | Rejected e => (Rejected e, s1)
        | Resolved body =>
            (* [response] was declared by [const] inside the [try] block *)
            match resolve (["id"; "cachedKey"; "cachedComic"] ++ moduleScope)
                    "response" with
            | Rejected e => (Rejected e, s1)
            | Resolved _ =>
                match body with
                | Malformed reason =>
                    (Rejected (mkFailure "FetchError" reason None false None None), s1)
                | Json comic =>
                    let processedComic := processComic comic in
                    (Resolved (ReturnedComic processedComic),
                     cache_set cachedKey (Entry.mk processedComic (clock s1)) s1)
                end
            end
        end
    end.

(** ** getRandom *)

(** [rnd] is the value [Math.random()] returns. *)
Definition getRandom (net : Network) (rnd : Q) : Async Returned := fun s =>
  (* [this.getLatest()] is a promise: its [id] property is undefined *)
  let s1 := getLatest_floating s in
  let latestID := Undefined in
  let randomID := js_add (js_floor (js_mul (Fin rnd) (toNumber latestID))) (ofZ 1) in
  let '(o, s2) := getById net randomID s1 in
  (rethrow "Failed to fetch random comic: " o, s2).

(** ** search *)

Definition js_div (a b : JsNum) : JsNum :=
  match a, b with
  | Fin x, Fin y =>
      (* only [0 / limit] is ever computed: [0 / 0] is [NaN] *)
      if bool_decide (Qnum y = 0) then NaN else Fin (Qdiv x y)
  | _, _ => NaN
  end.

(** [Math.ceil]. *)
Definition js_ceil (a : JsNum) : JsNum :=
  match a with
  | Fin x => Fin (inject_Z (Qceiling x))
  | NaN => NaN
  end.

(** [s.includes(sub)] *)
Fixpoint includes (s sub : string) : bool :=
  String.prefix sub s ||
  match s with
  | EmptyString => false
  | String _ s' => includes s' sub
  end.

Record Pagination : Type := mkPagination {
  page : Z;
  limit : Z;
  totalPages : JsNum
}.

Record SearchResult : Type := mkSearchResult {
  query : string;
  results : list Comic;
  total : Z;
  pagination : Pagination
}.

(** [recentComics()]: its first statement evaluates [Arrays], which nothing
    binds.  Past it, [this.cache.length] is undefined on a [Map], the [else]
    branch declares a [maxIterations] local to its own block, and the loop
    bound [maxIterations] is unbound as well; no statement after these can
    run. *)
Definition recentComics (s : State) : Outcome (list Comic) :=
  match resolve (["recentComics"] ++ moduleScope) "Arrays" with
  | Rejected e => Rejected e
  | Resolved _ =>
      match resolve (["recentComics"; "cachedComics"] ++ moduleScope)
              "maxIterations" with
      | Rejected e => Rejected e
      | Resolved _ => Resolved []
      end
  end.

(** The loop of [search]: the first match pushes the comic and then executes
    [total++] on the [const total]. *)
Fixpoint scan (query : string) (recent : list Comic) : Outcome unit :=
  match recent with
  | [] => Resolved tt
  | currentComic :: rest =>
      if includes (title currentComic) query
         || includes (transcript currentComic) query
      then Rejected (TypeError "Assignment to constant variable.")
      else scan query rest
  end.

(** [search(query, page = 1, limit = 10)]: [None] is an argument left
    undefined.  The length of [query] is its number of code units. *)
Definition search (net : Network) (query : string) (page limit : option Z)
  : Async SearchResult := fun s =>
  let page := default 1 page in
  let limit := default 10 limit in
  let total := 0 in
  match rethrow "Failed to search "
          (if bool_decide (Z.of_nat (String.length query) < 1)
              || bool_decide (Z.of_nat (String.length query) > 100)
           then Rejected (Error "Query must be between 1 and 100 characters")
           else Resolved tt) with
  | Rejected e => (Rejected e, s)
  | Resolved _ =>
      let s1 := getLatest_floating s in
      let latestID := Undefined in
      let offset := (page - 1) * limit in
      match recentComics s1 with
      | Rejected e => (Rejected e, s1)
      | Resolved recent =>
          match scan query recent with
          | Rejected e => (Rejected e, s1)
          | Resolved _ =>
              (Resolved
                 (mkSearchResult query [] total
                    (mkPagination page limit
                       (js_ceil (js_div (ofZ total) (ofZ limit))))),
               s1)
          end
      end
  end.

(** ** Runs of the service *)

(** What can happen to the service object: one of its four operations is
    called and awaited, a floating [getLatest] is resumed, or time passes. *)
Inductive Op : Type :=
  | CallGetLatest
  | CallGetById (id : JsNum)
  | CallGetRandom (rnd : Q)
  | CallSearch (query : string) (page limit : option Z)
  | Settle
  | Wait (d : Z).

Definition run (net : Network) (op : Op) (s : State) : State :=
  match op with
  | CallGetLatest => snd (getLatest net s)
  | CallGetById id => snd (getById net id s)
  | CallGetRandom rnd => snd (getRandom net rnd s)
  | CallSearch query page limit => snd (search net query page limit s)
  | Settle => settle net s
  | Wait d => advance d s
  end.

Definition runs (net : Network) (ops : list Op) (s : State) : State :=
  foldl (fun s op => run net op s) s ops.

(** The states the service object can be in after its construction. *)
Inductive reachable (net : Network) : State -> Prop :=
  | reachable_initial t : reachable net (initial t)
  | reachable_run op s : reachable net s -> reachable net (run net op s).

(** A comic the provider has served as the latest one: the processed payload
    of a 2xx reply to a request for [latestUrl]. *)
Definition served (net : Network) (c : Comic) : Prop :=
  exists t status statusText raw,
    fetched (net latestUrl t) = Response status statusText (Json raw)
    /\ ok status = true
    /\ c = processComic raw.

(** The body the last branch of the error handler sends. *)
Definition defaultResponse : ErrorHandler.HttpResponse :=
  ErrorHandler.mkResponse (Some 500)
    [("error", Some "Internal Server Error");
     ("message", Some "Error handler not implemented")].

(** A URL on the provider's host. *)
Definition toProvider (url : string) : bool :=
  String.prefix (baseUrl +:+ "/") url.

(** The request log of [s'] extends the one of [s] by requests to the
    provider only. *)
Definition grows (s s' : State) : Prop :=
  exists extra,
    requests s' = (requests s ++ extra)%list
    /\ Forall (fun url => toProvider url = true) extra.

(** ** Sample providers *)

Definition sampleRaw (n : Z) (name : string) : Raw.t :=
  Raw.mk n name "https://imgs.xkcd.com/comics/sample.png" "alt text" None
    "2006" "1" "1" name.

(** A provider that serves the same comic, with status 200, at every URL. *)
Definition steady (n : Z) : Network := fun url t =>
  mkReply (Response 200 "OK" (Json (sampleRaw n "Barrel"))) 40.

(** A provider whose latest comic changes at time [switch]. *)
Definition moving (switch : Z) : Network := fun url t =>
  mkReply (Response 200 "OK"
             (Json (if bool_decide (t < switch) then sampleRaw 1 "Barrel"
                    else sampleRaw 2 "Petit Trees"))) 40.

(** A provider that answers every request with a given status line. *)
Definition failing (status : Z) (statusText : string) : Network := fun url t =>
  mkReply (Response status statusText (Malformed "Unexpected token < in JSON")) 40.

(** A provider that cannot be reached. *)
Definition unreachable : Network := fun url t =>
  mkReply (NetworkError "getaddrinfo ENOTFOUND xkcd.com") 40.

(** The service after one awaited [getLatest] against the moving provider:
    the comic "Barrel" is cached under ['latest'] with timestamp 40. *)
Definition warm : State := snd (getLatest (moving 200000) (initial 0)).

Definition barrel : Comic := processComic (sampleRaw 1 "Barrel").
Definition petit : Comic := processComic (sampleRaw 2 "Petit Trees").

(** ** routes/comics.js *)

(** What a route does with a request: it sends a JSON body with a status, or
    it hands a failure to [next]. *)
Inductive Payload : Type :=
  | LatestJson (comic : Comic)
  | ComicJson (comic : Returned)
  | ErrorJson (error : string).

Inductive Answer : Type :=
  | Sent (status : Z) (payload : Payload)
  | Forwarded (e : Failure).

(** A middleware or handler of a route, run on the service object. *)
Definition Handler : Type := State -> Answer * State.

(** The [validate] middleware, given the messages of the validation errors
    of the request in order: with none it calls [next], otherwise it sends
    status 400 with the first message. *)
Definition validate (errors : list string) (next : Handler) : Handler :=
  fun s =>
    match errors with
    | [] => next s
    | msg :: _ => (Sent 400 (ErrorJson msg), s)
    end.

(** The routes in the order in which the router registers them. *)
Inductive Route : Type :=
  | Latest
  | ById (id : string)
  | Random
  | SearchComics.

Section Router.

(** The web framework and the validation library, as far as the router
    relies on them: whether a path without parameters matches the request
    path, the value [/:id] captures from it, the [isInt] validator with its
    [min] option, and [parseInt(_, 10)]. *)
Variable literal : string -> string -> bool.
Variable capture : string -> option string.
Variable isInt : Z -> string -> bool.
Variable parseInt : string -> JsNum.

Variable net : Network.

(** The first registered route that matches the request path. *)
Definition route_of (path : string) : option Route :=
  if literal "/latest" path then Some Latest
  else match capture path with
       | Some id => Some (ById id)
       | None =>
           if literal "/random" path then Some Random
           else if literal "/search" path then Some SearchComics
           else None
       end.

(** [GET /latest] *)
Definition latestRoute : Handler := fun s =>
  match getLatest net s with
  | (Resolved comic, s1) => (Sent 200 (LatestJson comic), s1)
  | (Rejected error, s1) => (Forwarded error, s1)
  end.

(** [GET /:id], with [id] the value of [req.params.id]. *)
Definition byIdRoute (id : string) : Handler :=
  validate
    (if isInt 1 id then [] else ["Comic ID must be a positive integer"])
    (fun s =>
       match getById net (parseInt id) s with
       | (Resolved comic, s1) => (Sent 200 (ComicJson comic), s1)
       | (Rejected error, s1) => (Forwarded error, s1)
       end).


End Router.

(** ** A sample framework *)

(** Plain stand-ins for the framework and the validation library, to
    evaluate the router on concrete requests: a parameterless route matches
    the path equal to it, [/:id] captures a single non-empty segment, and
    only unsigned decimal numerals are integers. *)
Definition sampleLiteral (route path : string) : bool :=
  bool_decide (route = path).

Fixpoint has_slash (s : string) : bool :=
  match s with
  | EmptyString => false
  | String a s' => bool_decide (String a "" = "/") || has_slash s'
  end.

Definition sampleCapture (path : string) : option string :=
  match path with
  | EmptyString => None
  | String a seg =>
      if bool_decide (String a "" = "/") && negb (bool_decide (seg = ""))
         && negb (has_slash seg)
      then Some seg else None
  end.

Fixpoint digits (acc : Z) (s : string) : option Z :=
  match s with
  | EmptyString => Some acc
  | String a s' =>
      let n := Z.of_nat (Ascii.nat_of_ascii a) in
      if bool_decide (48 <= n <= 57) then digits (10 * acc + (n - 48)) s'
      else None
  end.

Definition decimal (s : string) : option Z :=
  if bool_decide (s = "") then None else digits 0 s.

Definition sampleIsInt (min : Z) (s : string) : bool :=
  match decimal s with
  | Some n => bool_decide (min <= n)
  | None => false
  end.

Definition sampleParseInt (s : string) : JsNum :=
  match decimal s with
  | Some n => ofZ n
  | None => NaN
  end.

(** * Properties *)

Import ErrorHandler.

(** ** Scopes and keys *)

Lemma response_unbound :
  resolve (["id"; "cachedKey"; "cachedComic"] ++ moduleScope) "response"
  = Rejected (ReferenceError "response").
Proof. vm_compute. reflexivity. Qed.

Lemma Arrays_unbound :
  resolve (["recentComics"] ++ moduleScope) "Arrays"
  = Rejected (ReferenceError "Arrays").
Proof. vm_compute. reflexivity. Qed.

Lemma recentComics_throws (s : State) :
  recentComics s = Rejected (ReferenceError "Arrays").
Proof. unfold recentComics. rewrite Arrays_unbound. reflexivity. Qed.

(** A per-identifier key is never the key of the latest comic. *)
Lemma comic_key_not_latest (x : string) : "comic-" +:+ x ≠ "latest".
Proof. discriminate. Qed.

(** An error thrown by [new Error] takes the last branch of the handler. *)
Lemma plain_error_unclassified (msg : string) :
  classify (Error msg) = Unclassified.
Proof. reflexivity. Qed.

Lemma plain_error_status (msg : string) :
  status (errorHandler (Error msg)) = Some 500.
Proof. reflexivity. Qed.

(** Every failure that reaches the last branch gets the same answer. *)
Lemma errorHandler_unclassified (err : Failure) :
  classify err = Unclassified ->
  errorHandler err
  = mkResponse (Some 500)
      [("error", Some "Internal Server Error");
       ("message", Some "Error handler not implemented")].
Proof.
  unfold classify, errorHandler.
  repeat (destruct (bool_decide _); [discriminate |]).
  destruct (isOperational err); [discriminate | reflexivity].
Qed.

(** ** Numbers as the service formats and compares them *)

Example numToString_integer : numToString (ofZ 614) = "614".
Proof. vm_compute. reflexivity. Qed.

Example numToString_fraction : numToString (Fin (3 # 2)%Q) = "1.5".
Proof. vm_compute. reflexivity. Qed.

Example numToString_negative : numToString (Fin (-5 # 4)%Q) = "-1.25".
Proof. vm_compute. reflexivity. Qed.

Example guard_one_and_a_half : js_lt (Fin (3 # 2)%Q) (ofZ 1) = false.
Proof. reflexivity. Qed.

Example guard_one_half : js_lt (Fin (1 # 2)%Q) (ofZ 1) = true.
Proof. reflexivity. Qed.

Example guard_NaN : js_lt NaN (ofZ 1) = false.
Proof. reflexivity. Qed.

Lemma js_lt_integers (a b : Z) : js_lt (ofZ a) (ofZ b) = bool_decide (a < b).
Proof. unfold js_lt, ofZ. simpl. apply bool_decide_ext. lia. Qed.

(** ** getLatest *)

Section GetLatest.

Variable net : Network.

Lemma freshLatest_hit (s : State) (cached : Entry.t) :
  cache s !! "latest" = Some cached ->
  clock s - Entry.timestamp cached < cacheTimeout ->
  freshLatest s = Some (Entry.data cached).
Proof.
  intros Hget Hage. unfold freshLatest. rewrite Hget.
  rewrite bool_decide_eq_true_2 by exact Hage. reflexivity.
Qed.

Lemma freshLatest_stale (s : State) (cached : Entry.t) :
  cache s !! "latest" = Some cached ->
  cacheTimeout <= clock s - Entry.timestamp cached ->
  freshLatest s = None.
Proof.
  intros Hget Hage. unfold freshLatest. rewrite Hget.
  rewrite bool_decide_eq_false_2 by lia. reflexivity.
Qed.

Lemma getLatest_hit (s : State) (cached : Entry.t) :
  cache s !! "latest" = Some cached ->
  clock s - Entry.timestamp cached < cacheTimeout ->
  getLatest net s = (Resolved (Entry.data cached), s).
Proof.
  intros Hget Hage. unfold getLatest.
  rewrite (freshLatest_hit s cached Hget Hage). reflexivity.
Qed.

Lemma getLatest_refetch (s : State) status statusText raw :
  freshLatest s = None ->
  fetched (net latestUrl (clock s)) = Response status statusText (Json raw) ->
  ok status = true ->
  let arrived := advance (elapsed (net latestUrl (clock s))) (request latestUrl s) in
  getLatest net s
  = (Resolved (processComic raw),
     cache_set "latest" (Entry.mk (processComic raw) (clock arrived)) arrived).
Proof.
  intros Hstale Hreply Hok arrived. unfold getLatest.
  rewrite Hstale, Hreply. unfold latestFetched.
  rewrite Hok. reflexivity.
Qed.

Lemma latestFetched_failed (r : Fetched) (s : State) :
  fetch_failed r = true ->
  exists e, latestFetched r s = (Rejected e, s).
Proof.
  destruct r as [reason | status statusText body]; simpl; intros Hfail.
  - eauto.
  - rewrite Hfail. eauto.
Qed.

(** Whatever the reply, resuming [getLatest] only ever writes the key
    ['latest']. *)
Lemma latestFetched_cache (r : Fetched) (s : State) :
  cache (snd (latestFetched r s)) = cache s
  \/ exists e, cache (snd (latestFetched r s)) = <["latest" := e]> (cache s).
Proof.
  destruct r as [reason | status statusText body]; simpl.
  - left; reflexivity.
  - destruct (negb (ok status)); [left; reflexivity |].
    destruct body; simpl; [right; eauto | left; reflexivity].
Qed.

End GetLatest.

(** C1. With an entry cached under ['latest'], a call to [getLatest] made
    while the entry is younger than the five-minute timeout returns the
    cached comic and leaves the state as it was, so a second call made
    [d1] later, still inside the window, returns the same comic and the
    request log has not grown.  A call made [d2] later, once the entry has
    reached the timeout, issues one request for the latest comic and, when
    the provider answers with a 2xx status and a payload, returns that
    payload processed and stores it with the time of arrival. *)
Theorem getLatest_ttl (net : Network) (s : State) (cached : Entry.t)
    (d1 d2 : Z) (status : Z) (statusText : string) (raw : Raw.t) :
  cache s !! "latest" = Some cached ->
  clock s - Entry.timestamp cached < cacheTimeout ->
  clock s + d1 - Entry.timestamp cached < cacheTimeout ->
  cacheTimeout <= clock s + d2 - Entry.timestamp cached ->
  fetched (net latestUrl (clock s + d2)) = Response status statusText (Json raw) ->
  ok status = true ->
  getLatest net s = (Resolved (Entry.data cached), s)
  /\ getLatest net (advance d1 s) = (Resolved (Entry.data cached), advance d1 s)
  /\ requests (advance d1 s) = requests s
  /\ exists s',
       getLatest net (advance d2 s) = (Resolved (processComic raw), s')
       /\ requests s' = (requests s ++ [latestUrl])%list
       /\ cache s' !! "latest"
          = Some (Entry.mk (processComic raw)
                    (clock s + d2 + elapsed (net latestUrl (clock s + d2)))).
Proof.
  intros Hget Hfirst Hsecond Hlate Hreply Hok.
  split; [| split; [| split]].
  - apply getLatest_hit; assumption.
  - apply getLatest_hit; simpl; assumption.
  - reflexivity.
  - eexists. split; [| split].
    + apply (getLatest_refetch net (advance d2 s) status statusText raw).
      * apply (freshLatest_stale (advance d2 s) cached); simpl; assumption.
      * exact Hreply.
      * exact Hok.
    + reflexivity.
    + simpl. apply lookup_insert_eq.
Qed.

Lemma getLatest_ttl_witness :
  getLatest (moving 200000) warm = (Resolved barrel, warm)
  /\ getLatest (moving 200000) (advance 1000 warm)
     = (Resolved barrel, advance 1000 warm)
  /\ requests (advance 1000 warm) = requests warm
  /\ exists s',
       getLatest (moving 200000) (advance 300000 warm) = (Resolved petit, s')
       /\ requests s' = (requests warm ++ [latestUrl])%list
       /\ cache s' !! "latest" = Some (Entry.mk petit (40 + 300000 + 40)).
Proof.
  apply (getLatest_ttl (moving 200000) warm (Entry.mk barrel 40)
           1000 300000 200 "OK" (sampleRaw 2 "Petit Trees")).
  - vm_compute. reflexivity.
  - vm_compute. reflexivity.
  - vm_compute. reflexivity.
  - vm_compute. discriminate.
  - vm_compute. reflexivity.
  - vm_compute. reflexivity.
Defined.

(** C10. When [getLatest] has to fetch (no fresh entry under ['latest']) and
    the fetch fails, by a rejected request or by a response whose status is
    not 2xx, [getLatest] rejects and the cache is exactly what it was: no
    key is added and a stale ['latest'] entry keeps its data and its
    timestamp.  The one request is in the log. *)
Theorem getLatest_failure_keeps_cache (net : Network) (s : State) :
  freshLatest s = None ->
  fetch_failed (fetched (net latestUrl (clock s))) = true ->
  exists e s',
    getLatest net s = (Rejected e, s')
    /\ cache s' = cache s
    /\ requests s' = (requests s ++ [latestUrl])%list.
Proof.
  intros Hstale Hfail. unfold getLatest. rewrite Hstale.
  set (arrived := advance _ (request latestUrl s)).
  destruct (latestFetched_failed _ arrived Hfail) as [e He].
  simpl. rewrite He. simpl.
  eexists _, arrived. split; [reflexivity |]. split; reflexivity.
Qed.

Lemma getLatest_failure_keeps_cache_witness :
  exists e s',
    getLatest (failing 503 "Service Unavailable") (advance 300000 warm)
    = (Rejected e, s')
    /\ cache s' = cache (advance 300000 warm)
    /\ requests s' = (requests (advance 300000 warm) ++ [latestUrl])%list.
Proof.
  apply (getLatest_failure_keeps_cache (failing 503 "Service Unavailable")
           (advance 300000 warm)).
  - vm_compute. reflexivity.
  - vm_compute. reflexivity.
Defined.

(** ** getById *)

Section GetById.

Variable net : Network.

(** The guard of [getById] rejects every number below 1 without touching
    the state. *)
Lemma getById_below_one (id : JsNum) (s : State) :
  js_lt id (ofZ 1) = true ->
  getById net id s = (Rejected (Error "Invalid comic ID"), s).
Proof. intros Hlt. unfold getById. rewrite Hlt. reflexivity. Qed.

(** [getById] never writes to the cache: the statement that would store
    the comic comes after the unbound [response]. *)
Lemma getById_cache (id : JsNum) (s : State) :
  cache (snd (getById net id s)) = cache s.
Proof.
  unfold getById. destruct (js_lt id (ofZ 1)); [reflexivity |].
  destruct (cache s !! _); [reflexivity |].
  destruct (rethrow _ _); [| reflexivity].
  rewrite response_unbound. reflexivity.
Qed.

(** On a miss [getById] rejects, whatever the provider answers. *)
Lemma getById_miss_rejects (id : JsNum) (s : State) :
  cache s !! ("comic-" +:+ numToString id) = None ->
  is_resolved (fst (getById net id s)) = false.
Proof.
  intros Hmiss. unfold getById. destruct (js_lt id (ofZ 1)); [reflexivity |].
  rewrite Hmiss. destruct (rethrow _ _); [| reflexivity].
  rewrite response_unbound. reflexivity.
Qed.

(** A 404 from the provider on a miss. *)
Lemma getById_404 (id : JsNum) (s : State) statusText body :
  js_lt id (ofZ 1) = false ->
  cache s !! ("comic-" +:+ numToString id) = None ->
  fetched (net (comicUrl id) (clock s)) = Response 404 statusText body ->
  fst (getById net id s) = Rejected (Error "Failed to getByID Comic not found").
Proof.
  intros Hid Hmiss Hreply. unfold getById. rewrite Hid, Hmiss, Hreply.
  reflexivity.
Qed.

(** Any other status outside 200..299 on a miss. *)
Lemma getById_http_error (id : JsNum) (s : State) status statusText body :
  js_lt id (ofZ 1) = false ->
  cache s !! ("comic-" +:+ numToString id) = None ->
  fetched (net (comicUrl id) (clock s)) = Response status statusText body ->
  status <> 404 ->
  ok status = false ->
  fst (getById net id s)
  = Rejected (Error ("Failed to getByID " +:+
                     ("HTTP " +:+ pretty status +:+ ": " +:+ statusText))).
Proof.
  intros Hid Hmiss Hreply H404 Hok. unfold getById.
  rewrite Hid, Hmiss, Hreply. unfold byIdFetched.
  rewrite bool_decide_eq_false_2 by exact H404. rewrite Hok. reflexivity.
Qed.

End GetById.

(** ** The cache over runs of the service *)

Section Runs.

Variable net : Network.

Lemma getLatest_floating_cache (s : State) :
  cache (getLatest_floating s) = cache s.
Proof. unfold getLatest_floating. destruct (freshLatest s); reflexivity. Qed.

Lemma getLatest_cache (s : State) :
  cache (snd (getLatest net s)) = cache s
  \/ exists e, cache (snd (getLatest net s)) = <["latest" := e]> (cache s).
Proof.
  unfold getLatest. destruct (freshLatest s); [left; reflexivity |].
  set (arrived := advance _ _).
  destruct (latestFetched_cache (fetched (net latestUrl (clock s))) arrived)
    as [H | [e H]];
    destruct (latestFetched _ arrived) as [o s2]; simpl in *;
    [left | right; exists e]; exact H.
Qed.

Lemma getRandom_cache (rnd : Q) (s : State) :
  cache (snd (getRandom net rnd s)) = cache s.
Proof.
  unfold getRandom.
  pose proof (getById_cache net
    (js_add (js_floor (js_mul (Fin rnd) (toNumber Undefined))) (ofZ 1))
    (getLatest_floating s)) as H.
  destruct (getById _ _ _) as [o s2]. simpl in *.
  rewrite H. apply getLatest_floating_cache.
Qed.

Lemma search_cache (query : string) (page limit : option Z) (s : State) :
  cache (snd (search net query page limit s)) = cache s.
Proof.
  unfold search. destruct (rethrow _ _); [| reflexivity].
  rewrite recentComics_throws. simpl. apply getLatest_floating_cache.
Qed.

Lemma settle_cache (s : State) :
  cache (settle net s) = cache s
  \/ exists e, cache (settle net s) = <["latest" := e]> (cache s).
Proof.
  unfold settle. destruct (floating s) as [| t rest]; [left; reflexivity |].
  apply (latestFetched_cache _ (mkState (cache s) (clock s) (requests s) rest)).
Qed.

(** One step either leaves the cache alone or overwrites ['latest']. *)
Lemma run_cache (op : Op) (s : State) :
  cache (run net op s) = cache s
  \/ exists e, cache (run net op s) = <["latest" := e]> (cache s).
Proof.
  destruct op; simpl.
  - apply getLatest_cache.
  - left. apply getById_cache.
  - left. apply getRandom_cache.
  - left. apply search_cache.
  - apply settle_cache.
  - left. reflexivity.
Qed.

Lemma run_keeps_key (op : Op) (s : State) (k : string) :
  is_Some (cache s !! k) -> is_Some (cache (run net op s) !! k).
Proof.
  intros Hk. destruct (run_cache op s) as [H | [e H]]; rewrite H.
  - exact Hk.
  - apply lookup_insert_is_Some. destruct (decide ("latest" = k)); auto.
Qed.

(** From its construction on, the service caches nothing but the latest
    comic. *)
Lemma reachable_only_latest (s : State) :
  reachable net s -> forall k, is_Some (cache s !! k) -> k = "latest".
Proof.
  induction 1 as [t | op s Hs IH]; intros k Hk.
  - simpl in Hk. rewrite lookup_empty in Hk. destruct Hk as [? Hk]. discriminate.
  - destruct (run_cache op s) as [H | [e H]]; rewrite H in Hk.
    + auto.
    + apply lookup_insert_is_Some in Hk. destruct Hk as [Hk | [_ Hk]]; auto.
Qed.

(** Hence no call of [getById] on the running service ever resolves. *)
Lemma reachable_getById_rejects (s : State) (id : JsNum) :
  reachable net s -> is_resolved (fst (getById net id s)) = false.
Proof.
  intros Hs. apply getById_miss_rejects.
  destruct (cache s !! ("comic-" +:+ numToString id)) eqn:Hget; [| reflexivity].
  exfalso. apply (comic_key_not_latest (numToString id)).
  apply (reachable_only_latest s Hs). rewrite Hget. eauto.
Qed.

(** The identifier [getRandom] computes is [NaN], whatever [Math.random]
    returned. *)
Lemma randomID_NaN (rnd : Q) :
  js_add (js_floor (js_mul (Fin rnd) (toNumber Undefined))) (ofZ 1) = NaN.
Proof. reflexivity. Qed.



(** And every call of [search] with a query of accepted length rejects in
    [recentComics]. *)
Lemma search_valid_rejects (query : string) (page limit : option Z) (s : State) :
  1 <= Z.of_nat (String.length query) <= 100 ->
  search net query page limit s
  = (Rejected (ReferenceError "Arrays"), getLatest_floating s).
Proof.
  intros Hlen. unfold search.
  rewrite !bool_decide_eq_false_2 by lia. cbn [orb rethrow].
  rewrite recentComics_throws. reflexivity.
Qed.

End Runs.

(** C8. No step of the service removes a cache entry: a key present before
    any sequence of operations (calls of [getLatest], [getById], [getRandom]
    and [search], resumptions of floating fetches, time passing) is present
    after it, and the entry of every key other than ['latest'] is the one
    it was. *)
Theorem runs_keep_keys (net : Network) (ops : list Op) (s : State) (k : string) :
  is_Some (cache s !! k) ->
  is_Some (cache (runs net ops s) !! k)
  /\ (k <> "latest" -> cache (runs net ops s) !! k = cache s !! k).
Proof.
  revert s. induction ops as [| op ops IH]; intros s Hk.
  - split; [exact Hk | reflexivity].
  - simpl. destruct (IH (run net op s) (run_keeps_key net op s k Hk)) as [IH1 IH2].
    split; [exact IH1 |]. intros Hne. rewrite (IH2 Hne).
    destruct (run_cache net op s) as [H | [e H]]; rewrite H; [reflexivity |].
    apply lookup_insert_ne. congruence.
Qed.

Lemma runs_keep_keys_witness :
  is_Some (cache (runs (moving 200000)
                    [CallGetRandom (1 # 2)%Q; CallSearch "xkcd" (Some 2) (Some 5);
                     Wait 400000; Settle; CallGetById (ofZ 1); CallGetLatest]
                    warm) !! "latest")
  /\ ("latest" <> "latest" ->
      cache (runs (moving 200000)
               [CallGetRandom (1 # 2)%Q; CallSearch "xkcd" (Some 2) (Some 5);
                Wait 400000; Settle; CallGetById (ofZ 1); CallGetLatest]
               warm) !! "latest"
      = cache warm !! "latest").
Proof.
  apply (runs_keep_keys (moving 200000)
           [CallGetRandom (1 # 2)%Q; CallSearch "xkcd" (Some 2) (Some 5);
            Wait 400000; Settle; CallGetById (ofZ 1); CallGetLatest]
           warm "latest").
  vm_compute. eauto.
Defined.

(** C2. [getById] tests only [id < 1].  Called with 1.5 on a new service it
    passes the guard, asks the provider for [/1.5/info.0.json] and rejects
    with the unbound [response]; called with 0 it rejects with a plain
    [Error] whose name the handler does not know, so the handler answers
    500 where the specification promises the 400 of an invalid comic id. *)
Theorem getById_fractional_id_fetches :
  is_integer (Fin (3 # 2)%Q) = false
  /\ getById (steady 1) (Fin (3 # 2)%Q) (initial 0)
     = (Rejected (ReferenceError "response"),
        mkState ∅ 40 ["https://xkcd.com/1.5/info.0.json"] [])
  /\ getById (steady 1) (ofZ 0) (initial 0)
     = (Rejected (Error "Invalid comic ID"), initial 0)
  /\ classify (Error "Invalid comic ID") = Unclassified
  /\ status (errorHandler (Error "Invalid comic ID")) = Some 500.
Proof. repeat split; vm_compute; reflexivity. Qed.

(** C3. On a new service whose provider serves comic 1 with status 200, a
    first [getById(1)] fetches and then rejects with the unbound [response],
    storing nothing; a second [getById(1)] a second later fetches again and
    rejects again. *)
Theorem getById_never_caches :
  let first := getById (steady 1) (ofZ 1) (initial 0) in
  let second := getById (steady 1) (ofZ 1) (advance 1000 (snd first)) in
  fst first = Rejected (ReferenceError "response")
  /\ cache (snd first) = ∅
  /\ fst second = Rejected (ReferenceError "response")
  /\ requests (snd second)
     = ["https://xkcd.com/1/info.0.json"; "https://xkcd.com/1/info.0.json"].
Proof. repeat split; vm_compute; reflexivity. Qed.

(** C4. When the provider answers 404, [getById(1)] rejects with a plain
    [Error] whose message is ["Failed to getByID Comic not found"]; the
    handler does not classify it as a missing comic and answers 500 with the
    default body. *)
Theorem getById_404_answers_500 :
  let e := Error "Failed to getByID Comic not found" in
  fst (getById (failing 404 "Not Found") (ofZ 1) (initial 0)) = Rejected e
  /\ classify e = Unclassified
  /\ errorHandler e
     = mkResponse (Some 500)
         [("error", Some "Internal Server Error");
          ("message", Some "Error handler not implemented")].
Proof. repeat split; vm_compute; reflexivity. Qed.

(** C5. With a provider whose latest comic has identifier 1 and which
    answers every request with status 200, [getLatest] resolves to comic 1,
    and afterwards [getRandom] rejects for every value of [Math.random()]:
    it asks for comic [NaN]. *)
Theorem getRandom_rejects_when_latest_is_1 :
  let s1 := snd (getLatest (steady 1) (initial 0)) in
  fst (getLatest (steady 1) (initial 0)) = Resolved barrel
  /\ id barrel = 1
  /\ forall rnd : Q,
       fst (getRandom (steady 1) rnd s1)
       = Rejected (Error "Failed to fetch random comic: response is not defined")
       /\ requests (snd (getRandom (steady 1) rnd s1))
          = ["https://xkcd.com/info.0.json"; "https://xkcd.com/NaN/info.0.json"].
Proof.
  repeat split; try (vm_compute; reflexivity);
    unfold getRandom; rewrite randomID_NaN; vm_compute; reflexivity.
Qed.

(** C6, as the specification states it, fails for the empty query: the
    failure of [search] is not one the handler classifies as a validation
    error. *)
Lemma search_empty_query_not_ValidationError :
  ~ exists e s',
      search (steady 1) "" None None (initial 0) = (Rejected e, s')
      /\ classify e = ValidationError.
Proof.
  intros (e & s' & Hrun & Hclass).
  vm_compute in Hrun. injection Hrun as <- _.
  vm_compute in Hclass. discriminate.
Qed.

(** C6, amended.  For a query of length 0 or of length above 100, [search]
    rejects with a plain [Error] carrying the message of the length rule,
    whatever the cache holds, and leaves the state as it was: no request is
    issued.  The handler treats this failure as unclassified. *)
Theorem search_rejects_bad_length (net : Network) (query : string)
    (page limit : option Z) (s : State) :
  String.length query = 0%nat \/ (100 < String.length query)%nat ->
  search net query page limit s
  = (Rejected (Error "Failed to search Query must be between 1 and 100 characters"), s)
  /\ classify (Error "Failed to search Query must be between 1 and 100 characters")
     = Unclassified.
Proof.
  intros Hlen. split; [| reflexivity]. unfold search.
  destruct Hlen as [Hlen | Hlen].
  - rewrite (bool_decide_eq_true_2 (Z.of_nat (String.length query) < 1)) by lia.
    reflexivity.
  - rewrite (bool_decide_eq_true_2 (Z.of_nat (String.length query) > 100)) by lia.
    rewrite orb_true_r. reflexivity.
Qed.

Lemma search_rejects_bad_length_witness :
  search (steady 1) "" (Some 2) (Some 5) warm
  = (Rejected (Error "Failed to search Query must be between 1 and 100 characters"), warm)
  /\ classify (Error "Failed to search Query must be between 1 and 100 characters")
     = Unclassified.
Proof.
  apply (search_rejects_bad_length (steady 1) "" (Some 2) (Some 5) warm).
  left. reflexivity.
Defined.

(** C7. On a new service, [search("xkcd", 2, 5)] rejects with the unbound
    [Arrays] of [recentComics], after the request of the floating
    [getLatest] has left; it returns no result object. *)
Theorem search_xkcd_empty_cache_rejects :
  search (steady 1) "xkcd" (Some 2) (Some 5) (initial 0)
  = (Rejected (ReferenceError "Arrays"),
     mkState ∅ 0 ["https://xkcd.com/info.0.json"] [0]).
Proof. vm_compute. reflexivity. Qed.

(** C9. For a plain [Error], which is none of the named failures and not
    operational, the handler answers 500 with the message ["Error handler
    not implemented"], not the message the specification gives. *)
Theorem errorHandler_default_body :
  errorHandler (Error "boom")
  = mkResponse (Some 500)
      [("error", Some "Internal Server Error");
       ("message", Some "Error handler not implemented")]
  /\ errorHandler (Error "boom")
     <> mkResponse (Some 500)
          [("error", Some "Internal Server Error");
           ("message", Some "Something went wrong on our end")].
Proof. split; [reflexivity | discriminate]. Qed.

(** * Further properties of the service *)

Section LatestCalls.

Variable net : Network.

(** How the [try] block of [getLatest] can end once the fetch has settled:
    it throws and leaves the state alone, or it stores the processed payload
    of a 2xx reply under ['latest'] with the current time. *)
Lemma latestFetched_cases (r : Fetched) (s : State) :
  (exists e, latestFetched r s = (Rejected e, s))
  \/ (exists status statusText raw,
        r = Response status statusText (Json raw)
        /\ ok status = true
        /\ latestFetched r s
           = (Resolved (processComic raw),
              cache_set "latest" (Entry.mk (processComic raw) (clock s)) s)).
Proof.
  destruct r as [reason | status statusText body]; simpl.
  - left. eauto.
  - destruct (ok status) eqn:Hok; simpl; [| left; eauto].
    destruct body as [raw | reason]; [| left; eauto].
    right. exists status, statusText, raw. auto.
Qed.

(** X1. A call of [getLatest] that had to fetch and resolved is followed,
    for every delay below the timeout, by a call that returns the same comic
    from the cache and changes nothing. *)
Theorem getLatest_fetch_then_hit (s s1 : State) (c : Comic) (d : Z) :
  freshLatest s = None ->
  getLatest net s = (Resolved c, s1) ->
  d < cacheTimeout ->
  getLatest net (advance d s1) = (Resolved c, advance d s1).
Proof.
  intros Hstale Hrun Hd. unfold getLatest in Hrun. rewrite Hstale in Hrun.
  set (arrived := advance _ (request latestUrl s)) in Hrun.
  destruct (latestFetched_cases (fetched (net latestUrl (clock s))) arrived)
    as [[e He] | (status & statusText & raw & _ & _ & He)];
    simpl in Hrun; rewrite He in Hrun; simpl in Hrun; [discriminate |].
  injection Hrun as <- <-.
  apply (getLatest_hit net _ (Entry.mk (processComic raw) (clock arrived))).
  - simpl. apply lookup_insert_eq.
  - simpl. lia.
Qed.

Lemma getLatest_resolved_cached (s s1 : State) (c : Comic) :
  getLatest net s = (Resolved c, s1) ->
  exists cached,
    cache s1 !! "latest" = Some cached
    /\ Entry.data cached = c
    /\ clock s1 - Entry.timestamp cached < cacheTimeout.
Proof.
  intros Hrun. unfold getLatest in Hrun.
  destruct (freshLatest s) as [data |] eqn:Hfresh.
  - injection Hrun as <- <-. unfold freshLatest in Hfresh.
    destruct (cache s !! "latest") as [cached |] eqn:Hget; [| discriminate].
    destruct (bool_decide _) eqn:Hage in Hfresh; [| discriminate].
    injection Hfresh as <-. apply bool_decide_eq_true_1 in Hage.
    exists cached. auto.
  - set (arrived := advance _ (request latestUrl s)) in Hrun.
    destruct (latestFetched_cases (fetched (net latestUrl (clock s))) arrived)
      as [[e He] | (status & statusText & raw & _ & _ & He)];
      simpl in Hrun; rewrite He in Hrun; simpl in Hrun; [discriminate |].
    injection Hrun as <- <-.
    exists (Entry.mk (processComic raw) (clock arrived)).
    split; [apply lookup_insert_eq |]. split; [reflexivity |]. simpl.
    unfold cacheTimeout. lia.
Qed.

(** X2. Whenever [getLatest] resolves, the comic it returns is the data of
    the entry cached under ['latest'] in the state it leaves, and that entry
    is younger than the timeout at that moment. *)
Theorem getLatest_returns_cached (s s1 : State) (c : Comic) :
  getLatest net s = (Resolved c, s1) ->
  exists cached,
    cache s1 !! "latest" = Some cached
    /\ Entry.data cached = c
    /\ clock s1 - Entry.timestamp cached < cacheTimeout.
Proof. apply getLatest_resolved_cached. Qed.

(** X3. Whenever [getLatest] rejects, for whatever reason (a rejected
    request, a status outside 200..299, a body that is not JSON), the cache
    is exactly what it was, one request for the latest comic has been
    logged, and the failure is a plain [Error] whose message starts with
    ["Failed to fetch latest comic: "]. *)
Theorem getLatest_rejection (s s1 : State) (e : Failure) :
  getLatest net s = (Rejected e, s1) ->
  cache s1 = cache s
  /\ requests s1 = (requests s ++ [latestUrl])%list
  /\ name e = "Error"
  /\ exists reason, message e = "Failed to fetch latest comic: " +:+ reason.
Proof.
  intros Hrun. unfold getLatest in Hrun.
  destruct (freshLatest s) as [data |]; [discriminate |].
  set (arrived := advance _ (request latestUrl s)) in Hrun.
  destruct (latestFetched_cases (fetched (net latestUrl (clock s))) arrived)
    as [[e' He] | (status & statusText & raw & _ & _ & He)];
    simpl in Hrun; rewrite He in Hrun; simpl in Hrun; [| discriminate].
  injection Hrun as <- <-. simpl. eauto.
Qed.

End LatestCalls.

Lemma getLatest_fetch_then_hit_witness :
  getLatest (steady 1) (advance 299999 (snd (getLatest (steady 1) (initial 0))))
  = (Resolved barrel, advance 299999 (snd (getLatest (steady 1) (initial 0)))).
Proof.
  apply (getLatest_fetch_then_hit (steady 1) (initial 0)).
  - reflexivity.
  - vm_compute. reflexivity.
  - reflexivity.
Defined.

Lemma getLatest_returns_cached_witness :
  exists cached,
    cache warm !! "latest" = Some cached
    /\ Entry.data cached = barrel
    /\ clock warm - Entry.timestamp cached < cacheTimeout.
Proof.
  apply (getLatest_returns_cached (moving 200000) (initial 0)).
  vm_compute. reflexivity.
Defined.

Lemma getLatest_rejection_witness :
  cache (mkState (cache warm) 300080 (requests warm ++ [latestUrl]) []) = cache (advance 300000 warm)
  /\ requests (mkState (cache warm) 300080 (requests warm ++ [latestUrl]) [])
     = (requests (advance 300000 warm) ++ [latestUrl])%list
  /\ name (Error "Failed to fetch latest comic: Unexpected token < in JSON") = "Error"
  /\ exists reason,
       message (Error "Failed to fetch latest comic: Unexpected token < in JSON")
       = "Failed to fetch latest comic: " +:+ reason.
Proof.
  apply (getLatest_rejection (failing 200 "OK") (advance 300000 warm)).
  vm_compute. reflexivity.
Defined.

(** ** Invariants of the running service *)

Section Running.

Variable net : Network.

Lemma run_cache_served (op : Op) (s : State) :
  cache (run net op s) = cache s
  \/ exists c ts,
       served net c
       /\ cache (run net op s) = <["latest" := Entry.mk c ts]> (cache s).
Proof.
  destruct op; simpl.
  - unfold getLatest. destruct (freshLatest s); [left; reflexivity |].
    set (arrived := advance _ (request latestUrl s)).
    destruct (latestFetched_cases (fetched (net latestUrl (clock s))) arrived)
      as [[e He] | (status & statusText & raw & Hr & Hok & He)];
      rewrite He; simpl; [left; reflexivity |].
    right. exists (processComic raw), (clock arrived).
    split; [| reflexivity]. exists (clock s), status, statusText, raw. auto.
  - left. apply getById_cache.
  - left. apply getRandom_cache.
  - left. apply search_cache.
  - unfold settle. destruct (floating s) as [| t rest]; [left; reflexivity |].
    set (resumed := mkState (cache s) (clock s) (requests s) rest).
    destruct (latestFetched_cases (fetched (net latestUrl t)) resumed)
      as [[e He] | (status & statusText & raw & Hr & Hok & He)];
      rewrite He; simpl; [left; reflexivity |].
    right. exists (processComic raw), (clock s).
    split; [| reflexivity]. exists t, status, statusText, raw. auto.
  - left. reflexivity.
Qed.

Lemma reachable_cache_served (s : State) (k : string) (e : Entry.t) :
  reachable net s ->
  cache s !! k = Some e ->
  k = "latest" /\ served net (Entry.data e).
Proof.
  intros Hs. revert k e. induction Hs as [t | op s Hs IH]; intros k e Hk.
  - simpl in Hk. rewrite lookup_empty in Hk. discriminate.
  - destruct (run_cache_served op s) as [H | (c & ts & Hc & H)];
      rewrite H in Hk; [eauto |].
    destruct (decide ("latest" = k)) as [<- | Hne].
    + rewrite lookup_insert_eq in Hk. injection Hk as <-. auto.
    + rewrite lookup_insert_ne in Hk by exact Hne. eauto.
Qed.

(** X4. From its construction on, whatever is called on the service and
    whatever the provider answers, the cache holds no key but ['latest'],
    and the comic stored there is the processed payload of a 2xx reply of
    the provider to a request for the latest comic. *)
Theorem cache_holds_served_latest (s : State) (k : string) (e : Entry.t) :
  reachable net s ->
  cache s !! k = Some e ->
  k = "latest" /\ served net (Entry.data e).
Proof. apply reachable_cache_served. Qed.

(** X5. On the running service no call of [getById] resolves, for any
    identifier and any provider, and none changes the cache. *)
Theorem getById_running_service (s : State) (id : JsNum) :
  reachable net s ->
  is_resolved (fst (getById net id s)) = false
  /\ cache (snd (getById net id s)) = cache s.
Proof.
  intros Hs. split.
  - apply reachable_getById_rejects. exact Hs.
  - apply getById_cache.
Qed.

(** X6. The value of [Math.random()] has no influence on [getRandom]: the
    call behaves in the same way, on every state, for any two values. *)
Theorem getRandom_ignores_random (rnd1 rnd2 : Q) (s : State) :
  getRandom net rnd1 s = getRandom net rnd2 s.
Proof. unfold getRandom. rewrite !randomID_NaN. reflexivity. Qed.

(** X7. On the running service no call of [getRandom] resolves: each one
    rejects with a plain [Error] whose message starts with ["Failed to
    fetch random comic: "], after asking the provider for comic [NaN]. *)
Theorem getRandom_running_service (s : State) (rnd : Q) :
  reachable net s ->
  exists reason s1,
    getRandom net rnd s
    = (Rejected (Error ("Failed to fetch random comic: " +:+ reason)), s1)
    /\ last (requests s1) = Some (comicUrl NaN).
Proof.
  intros Hs. unfold getRandom. rewrite randomID_NaN.
  assert (Hmiss : cache (getLatest_floating s) !! ("comic-" +:+ numToString NaN) = None).
  { rewrite getLatest_floating_cache.
    destruct (cache s !! _) as [e |] eqn:Hget; [| reflexivity].
    assert (Hk : "comic-" +:+ numToString NaN = "latest")
      by (apply (reachable_only_latest net s Hs); rewrite Hget; eauto).
    discriminate. }
  unfold getById. simpl js_lt. cbn iota. rewrite Hmiss.
  destruct (rethrow _ _) as [body | e]; [rewrite response_unbound |];
    simpl; eexists _, _; (split; [reflexivity |]);
    simpl; apply last_snoc.
Qed.

End Running.

Lemma warm_reachable : reachable (moving 200000) warm.
Proof. exact (reachable_run _ CallGetLatest _ (reachable_initial _ 0)). Qed.

Lemma cache_holds_served_latest_witness :
  "latest" = "latest" /\ served (moving 200000) (Entry.data (Entry.mk barrel 40)).
Proof.
  apply (cache_holds_served_latest (moving 200000) warm "latest" (Entry.mk barrel 40)).
  - exact (reachable_run _ CallGetLatest _ (reachable_initial _ 0)).
  - vm_compute. reflexivity.
Defined.

Lemma getById_running_service_witness :
  is_resolved (fst (getById (steady 1) (ofZ 1) (initial 0))) = false
  /\ cache (snd (getById (steady 1) (ofZ 1) (initial 0))) = cache (initial 0).
Proof.
  apply (getById_running_service (steady 1) (initial 0) (ofZ 1)).
  exact (reachable_initial _ 0).
Defined.

Lemma getRandom_running_service_witness :
  exists reason s1,
    getRandom (moving 200000) (1 # 3)%Q warm
    = (Rejected (Error ("Failed to fetch random comic: " +:+ reason)), s1)
    /\ last (requests s1) = Some (comicUrl NaN).
Proof.
  apply (getRandom_running_service (moving 200000) warm (1 # 3)%Q).
  exact (reachable_run _ CallGetLatest _ (reachable_initial _ 0)).
Defined.

(** ** Where requests go, and how failures are answered *)

Section Traffic.

Variable net : Network.

Lemma grows_same (s s' : State) : requests s' = requests s -> grows s s'.
Proof.
  intros H. exists []. split; [| constructor].
  rewrite H. symmetry. apply app_nil_r.
Qed.

Lemma grows_refl (s : State) : grows s s.
Proof. apply grows_same. reflexivity. Qed.

Lemma grows_trans (s1 s2 s3 : State) : grows s1 s2 -> grows s2 s3 -> grows s1 s3.
Proof.
  intros (x & Hx & Fx) (y & Hy & Fy). exists (x ++ y)%list. split.
  - rewrite Hy, Hx. symmetry. apply app_assoc.
  - apply Forall_app. auto.
Qed.

Lemma grows_one (s s' : State) (url : string) :
  requests s' = (requests s ++ [url])%list -> toProvider url = true -> grows s s'.
Proof. intros H Hp. exists [url]. split; [exact H |]. repeat constructor. exact Hp. Qed.

Lemma prefix_append (s t : string) : String.prefix s (s +:+ t) = true.
Proof.
  induction s as [| a s IH]; simpl.
  - destruct t; reflexivity.
  - destruct (Ascii.ascii_dec a a); [exact IH | contradiction].
Qed.

Lemma comicUrl_toProvider (id : JsNum) : toProvider (comicUrl id) = true.
Proof.
  change (String.prefix "https://xkcd.com/"
            ("https://xkcd.com/" +:+ (numToString id +:+ "/info.0.json")) = true).
  apply prefix_append.
Qed.

Lemma latestFetched_requests (r : Fetched) (s : State) :
  requests (snd (latestFetched r s)) = requests s.
Proof.
  destruct (latestFetched_cases r s)
    as [[e He] | (status & statusText & raw & _ & _ & He)]; rewrite He; reflexivity.
Qed.

Lemma getLatest_grows (s : State) : grows s (snd (getLatest net s)).
Proof.
  unfold getLatest. destruct (freshLatest s); [apply grows_refl |].
  set (arrived := advance _ (request latestUrl s)).
  pose proof (latestFetched_requests (fetched (net latestUrl (clock s))) arrived) as H.
  destruct (latestFetched _ arrived) as [o s2]. simpl in *.
  apply (grows_one _ _ latestUrl); [exact H | reflexivity].
Qed.

Lemma getLatest_floating_grows (s : State) : grows s (getLatest_floating s).
Proof.
  unfold getLatest_floating. destruct (freshLatest s); [apply grows_refl |].
  apply (grows_one _ _ latestUrl); reflexivity.
Qed.

Lemma getById_grows (id : JsNum) (s : State) : grows s (snd (getById net id s)).
Proof.
  unfold getById. destruct (js_lt id (ofZ 1)); [apply grows_refl |].
  destruct (cache s !! _); [apply grows_refl |].
  destruct (rethrow _ _); [rewrite response_unbound |];
    apply (grows_one _ _ (comicUrl id));
    solve [reflexivity | apply comicUrl_toProvider].
Qed.

Lemma run_grows (op : Op) (s : State) : grows s (run net op s).
Proof.
  destruct op; simpl.
  - apply getLatest_grows.
  - apply getById_grows.
  - unfold getRandom.
    pose proof (getById_grows
      (js_add (js_floor (js_mul (Fin rnd) (toNumber Undefined))) (ofZ 1))
      (getLatest_floating s)) as H.
    destruct (getById _ _ _) as [o s2]. simpl in *.
    exact (grows_trans _ _ _ (getLatest_floating_grows s) H).
  - unfold search. destruct (rethrow _ _); [| apply grows_refl].
    rewrite recentComics_throws. apply getLatest_floating_grows.
  - unfold settle. destruct (floating s) as [| t rest]; [apply grows_refl |].
    apply grows_same. rewrite latestFetched_requests. reflexivity.
  - apply grows_same. reflexivity.
Qed.

(** X8. Over any sequence of operations the service sends requests to no
    host but the provider's: every URL added to the request log starts with
    ["https://xkcd.com/"], whatever identifiers and queries it is called
    with. *)
Theorem runs_request_provider_only (ops : list Op) (s : State) :
  grows s (runs net ops s).
Proof.
  revert s. induction ops as [| op ops IH]; intros s.
  - apply grows_refl.
  - simpl. exact (grows_trans _ _ _ (run_grows op s) (IH (run net op s))).
Qed.

(** X9. [search] never resolves: for every query, page and limit and on
    every state it rejects, and it leaves the cache as it was. *)
Theorem search_never_resolves (query : string) (page limit : option Z) (s : State) :
  is_resolved (fst (search net query page limit s)) = false
  /\ cache (snd (search net query page limit s)) = cache s.
Proof.
  split; [| apply search_cache].
  unfold search. destruct (rethrow _ _); [| reflexivity].
  rewrite recentComics_throws. reflexivity.
Qed.

(** X10. Every failure of one of the four operations of the service, on any
    state and with any provider, is answered by the error handler with its
    default response: status 500 and the fixed body.  The handler's 400 and
    404 branches are never taken for a failure the service raises. *)
Theorem service_failures_answer_500 (s s1 : State) (e : Failure) :
  getLatest net s = (Rejected e, s1)
  \/ (exists id, fst (getById net id s) = Rejected e)
  \/ (exists rnd, fst (getRandom net rnd s) = Rejected e)
  \/ (exists query page limit, fst (search net query page limit s) = Rejected e) ->
  errorHandler e = defaultResponse.
Proof.
  intros [H | [[id H] | [[rnd H] | (query & page & limit & H)]]].
  - unfold getLatest in H. destruct (freshLatest s); [discriminate |].
    destruct (latestFetched _ _) as [[c | e'] s2]; simpl in H; [discriminate |].
    injection H as <- _. reflexivity.
  - unfold getById in H. destruct (js_lt id (ofZ 1)).
    { injection H as <-. reflexivity. }
    destruct (cache s !! _); [discriminate |].
    destruct (byIdFetched _) as [body | e']; cbn [rethrow] in H.
    + rewrite response_unbound in H. injection H as <-. reflexivity.
    + injection H as <-. reflexivity.
  - unfold getRandom in H. destruct (getById _ _ _) as [[r | e'] s2]; simpl in H;
      [discriminate |]. injection H as <-. reflexivity.
  - unfold search in H.
    destruct (bool_decide _ || bool_decide _); cbn [rethrow] in H.
    + injection H as <-. reflexivity.
    + rewrite recentComics_throws in H. injection H as <-. reflexivity.
Qed.

End Traffic.

Lemma service_failures_answer_500_witness :
  errorHandler (Error "Failed to getByID Comic not found") = defaultResponse.
Proof.
  apply (service_failures_answer_500 (failing 404 "Not Found") (initial 0) (initial 0)).
  right. left. exists (ofZ 7). vm_compute. reflexivity.
Defined.

(** ** The error handler *)

(** X11. For a failure that is not named ["ValidationError"] and is not
    flagged operational, the response of the handler depends on nothing but
    the name of the failure: its message, details, status code and
    timestamp never reach the response. *)
Theorem errorHandler_hides_details (e1 e2 : Failure) :
  name e1 = name e2 ->
  name e1 <> "ValidationError" ->
  isOperational e1 = false ->
  isOperational e2 = false ->
  errorHandler e1 = errorHandler e2.
Proof.
  intros Hname Hnot H1 H2. unfold errorHandler.
  rewrite <- Hname, H1, H2.
  rewrite (bool_decide_eq_false_2 _ Hnot). reflexivity.
Qed.

Lemma errorHandler_hides_details_witness :
  errorHandler
    (mkFailure "TypeError" "Cannot read properties of undefined"
       (Some "at XKCDService.search") false (Some 502) (Some "2025-10-01"))
  = errorHandler (TypeError "Assignment to constant variable.").
Proof.
  apply errorHandler_hides_details.
  - reflexivity.
  - discriminate.
  - reflexivity.
  - reflexivity.
Defined.

(** X12. The name of a failure takes precedence over its operational flag:
    a failure named ["ComicNotFound"] is answered with 404 and one named
    ["ValidationError"] or ["InvalidComicID"] with 400, also when it is
    flagged operational and carries a status code of its own. *)
Theorem errorHandler_name_before_flag (err : Failure) :
  name err = "ValidationError" \/ name err = "ComicNotFound"
  \/ name err = "InvalidComicID" ->
  status (errorHandler err)
  = Some (if bool_decide (name err = "ComicNotFound") then 404 else 400).
Proof.
  intros [H | [H | H]]; unfold errorHandler; rewrite H; reflexivity.
Qed.

Lemma errorHandler_name_before_flag_witness :
  status (errorHandler
            (mkFailure "ComicNotFound" "gone" None true (Some 410) None))
  = Some (if bool_decide ("ComicNotFound" = "ComicNotFound") then 404 else 400).
Proof.
  apply (errorHandler_name_before_flag
           (mkFailure "ComicNotFound" "gone" None true (Some 410) None)).
  right. left. reflexivity.
Defined.

(** X13. The statuses the handler can send: 400, 404 or 500, or, only for a
    failure that is flagged operational and bears none of the three names,
    whatever the failure carries as its status code, which may be absent. *)
Theorem errorHandler_status_range (err : Failure) :
  status (errorHandler err) = Some 400
  \/ status (errorHandler err) = Some 404
  \/ status (errorHandler err) = Some 500
  \/ (isOperational err = true
      /\ classify err = Operational
      /\ status (errorHandler err) = statusCode err).
Proof.
  unfold errorHandler, classify.
  destruct (bool_decide (name err = "ValidationError")); [auto |].
  destruct (bool_decide (name err = "ComicNotFound")); [auto |].
  destruct (bool_decide (name err = "InvalidComicID")); [auto |].
  destruct (isOperational err); simpl; auto 10.
Qed.

(** ** processComic *)


(** * The router *)

Section Routes.

Variable literal : string -> string -> bool.
Variable capture : string -> option string.
Variable isInt : Z -> string -> bool.
Variable parseInt : string -> JsNum.
Variable net : Network.

(** A failure of [getById] takes the last branch of the error handler. *)
Lemma getById_rejection_default (id : JsNum) (s : State) (e : Failure) :
  fst (getById net id s) = Rejected e -> errorHandler e = defaultResponse.
Proof.
  unfold getById. destruct (js_lt id (ofZ 1)).
  { intros H. injection H as <-. reflexivity. }
  destruct (cache s !! _); [discriminate |].
  destruct (byIdFetched _) as [body | e']; cbn [rethrow].
  - rewrite response_unbound. intros H. injection H as <-. reflexivity.
  - intros H. injection H as <-. reflexivity.
Qed.

(** X15. A request that [/latest] does not match and from which [/:id]
    captures a value that is no integer from 1 on, as it does from the
    paths [/random] and [/search], is given to the [/:id] route, whose
    validation answers 400 with ["Comic ID must be a positive integer"]; the
    service is not called and the routes registered after [/:id] are not
    tried. *)
Theorem id_route_answers_later_paths (path id : string) (s : State) :
  literal "/latest" path = false ->
  capture path = Some id ->
  isInt 1 id = false ->
  route_of literal capture path = Some (ById id)
  /\ byIdRoute isInt parseInt net id s
     = (Sent 400 (ErrorJson "Comic ID must be a positive integer"), s).
Proof.
  intros Hlatest Hcapture Hint. split.
  - unfold route_of. rewrite Hlatest, Hcapture. reflexivity.
  - unfold byIdRoute. rewrite Hint. reflexivity.
Qed.

(** X16. When [/:id] captures a value from every path that [/random] or
    [/search] matches, no request is ever routed to the handlers of
    [/random] and [/search]: they are registered after [/:id]. *)
Theorem later_routes_unreachable (path : string) :
  (forall p, literal "/random" p = true -> is_Some (capture p)) ->
  (forall p, literal "/search" p = true -> is_Some (capture p)) ->
  route_of literal capture path <> Some Random
  /\ route_of literal capture path <> Some SearchComics.
Proof.
  intros Hrandom Hsearch. unfold route_of.
  destruct (literal "/latest" path); [split; discriminate |].
  destruct (capture path) as [id |] eqn:Hcapture; [split; discriminate |].
  destruct (literal "/random" path) eqn:Hr.
  { destruct (Hrandom path Hr) as [id Hid]. congruence. }
  destruct (literal "/search" path) eqn:Hs.
  { destruct (Hsearch path Hs) as [id Hid]. congruence. }
  split; discriminate.
Qed.

(** X17. On the running service the [/:id] route never sends a comic,
    whatever identifier is asked for and whatever the provider answers: it
    sends the 400 of the validation and leaves the service alone, or it
    forwards a failure that the error handler answers with its default
    500. *)
Theorem id_route_never_sends_comic (id : string) (s : State) :
  reachable net s ->
  (exists msg, byIdRoute isInt parseInt net id s = (Sent 400 (ErrorJson msg), s))
  \/ (exists e s1,
        byIdRoute isInt parseInt net id s = (Forwarded e, s1)
        /\ cache s1 = cache s
        /\ errorHandler e = defaultResponse).
Proof.
  intros Hs. unfold byIdRoute, validate.
  destruct (isInt 1 id); [right | left; eauto].
  pose proof (reachable_getById_rejects net s (parseInt id) Hs) as Hrej.
  pose proof (getById_rejection_default (parseInt id) s) as Hdef.
  pose proof (getById_cache net (parseInt id) s) as Hcache.
  destruct (getById net (parseInt id) s) as [[comic | e] s1]; simpl in *;
    [discriminate |].
  exists e, s1. auto.
Qed.

(** X18. On the running service, whatever [GET /latest] sends has status
    200 and is a comic the provider has served as the latest one; the
    entry under ['latest'] holds that comic afterwards. *)
Theorem latest_route_sends_served (s s1 : State) (st : Z) (payload : Payload) :
  reachable net s ->
  latestRoute net s = (Sent st payload, s1) ->
  st = 200
  /\ exists cached,
       cache s1 !! "latest" = Some cached
       /\ payload = LatestJson (Entry.data cached)
       /\ served net (Entry.data cached).
Proof.
  intros Hs Hrun. unfold latestRoute in Hrun.
  assert (Hs1 : reachable net (snd (getLatest net s)))
    by exact (reachable_run net CallGetLatest s Hs).
  destruct (getLatest net s) as [[comic | e] s2] eqn:Hget; [| discriminate].
  injection Hrun as <- <- <-. split; [reflexivity |].
  destruct (getLatest_resolved_cached net s s2 comic Hget) as (cached & Hc & Hd & _).
  exists cached. split; [exact Hc |]. split; [congruence |].
  exact (proj2 (reachable_cache_served net s2 "latest" cached Hs1 Hc)).
Qed.

End Routes.

Lemma id_route_answers_later_paths_witness :
  route_of sampleLiteral sampleCapture "/random" = Some (ById "random")
  /\ byIdRoute sampleIsInt sampleParseInt (steady 1) "random" warm
     = (Sent 400 (ErrorJson "Comic ID must be a positive integer"), warm).
Proof.
  apply (id_route_answers_later_paths sampleLiteral sampleCapture sampleIsInt
           sampleParseInt (steady 1) "/random" "random" warm).
  - reflexivity.
  - vm_compute. reflexivity.
  - vm_compute. reflexivity.
Defined.

Lemma later_routes_unreachable_witness :
  route_of sampleLiteral sampleCapture "/search" <> Some Random
  /\ route_of sampleLiteral sampleCapture "/search" <> Some SearchComics.
Proof.
  apply (later_routes_unreachable sampleLiteral sampleCapture "/search").
  - intros p Hp. apply bool_decide_eq_true_1 in Hp. subst p.
    vm_compute. eauto.
  - intros p Hp. apply bool_decide_eq_true_1 in Hp. subst p.
    vm_compute. eauto.
Defined.

Lemma id_route_never_sends_comic_witness :
  (exists msg,
     byIdRoute sampleIsInt sampleParseInt (moving 200000) "614" warm
     = (Sent 400 (ErrorJson msg), warm))
  \/ (exists e s1,
        byIdRoute sampleIsInt sampleParseInt (moving 200000) "614" warm
        = (Forwarded e, s1)
        /\ cache s1 = cache warm
        /\ errorHandler e = defaultResponse).
Proof.
  apply (id_route_never_sends_comic sampleIsInt sampleParseInt (moving 200000) "614" warm).
  exact (reachable_run _ CallGetLatest _ (reachable_initial _ 0)).
Defined.

Lemma latest_route_sends_served_witness :
  200 = 200
  /\ exists cached,
       cache warm !! "latest" = Some cached
       /\ LatestJson barrel = LatestJson (Entry.data cached)
       /\ served (moving 200000) (Entry.data cached).
Proof.
  apply (latest_route_sends_served (moving 200000) (initial 0) warm 200 (LatestJson barrel)).
  - exact (reachable_initial _ 0).
  - vm_compute. reflexivity.
Defined.


